(** * Slice geometry of the stacked pie chart

    A shallow embedding of the script blocks of
    [src/components/PieChart.vue] (the base component) and of its
    radial-gradient variant, together with the properties that the
    specification states about them.

    The script is written once, over an interface of JavaScript numbers, and
    read at two instances: IEEE-754 binary64 (what the code runs on, and what
    every concrete evaluation below uses) and the real numbers (exact
    arithmetic, where the algebraic laws are stated). *)

From Stdlib Require Import ZArith List String Ascii Bool Lia.
From Stdlib Require Import DecimalString DecimalNat DecimalPos.
From Stdlib Require Import Floats.
From Stdlib Require Import Reals Lra.
From Stdlib Require Import Permutation.
Import ListNotations.

Set Implicit Arguments.

(** ** JavaScript numbers *)

(** The operations on [number] that the script uses. *)
Class Number (num : Type) : Type := {
  of_Z : Z -> num;        (* an integer literal, an array length or an index *)
  literal_0_5 : num;      (* the literal [0.5] *)
  Math_PI : num;          (* [Math.PI] *)
  add : num -> num -> num;
  mul : num -> num -> num;
  div : num -> num -> num
}.

Declare Scope js_scope.
Delimit Scope js_scope with js.
Infix "+" := add : js_scope.
Infix "*" := mul : js_scope.
Infix "/" := div : js_scope.

(** An integer as a binary64 value; exact while its magnitude is below 2^53,
    which covers every literal, length and index of the script. *)
Definition float_of_Z (z : Z) : float :=
  match z with
  | Z0 => 0%float
  | Zpos _ => PrimFloat.of_uint63 (Uint63.of_Z z)
  | Zneg p => PrimFloat.opp (PrimFloat.of_uint63 (Uint63.of_Z (Zpos p)))
  end.

(** The numbers of the running code: binary64, round to nearest even;
    [Math.PI] is the double 0x1.921fb54442d18p+1. *)
#[export] Instance binary64 : Number float := {
  of_Z := float_of_Z;
  literal_0_5 := 0.5%float;
  Math_PI := 0x1.921fb54442d18p+1%float;
  add := PrimFloat.add;
  mul := PrimFloat.mul;
  div := PrimFloat.div
}.

(** Exact arithmetic: the same script read over the reals.  These are not the
    numbers of the running code: a statement at this instance says what the
    formulas mean, a statement at [binary64] what the code computes. *)
#[export] Instance real_number : Number R := {
  of_Z := IZR;
  literal_0_5 := 0.5%R;
  Math_PI := PI;
  add := Rplus;
  mul := Rmult;
  div := Rdiv
}.

(** ** Completions *)

(** A call either returns a value or throws; the only exception the script can
    raise is the [TypeError] of reading a property of [undefined]. *)
Inductive completion (T : Type) : Type :=
| Normal (value : T)
| Throw_TypeError.
Arguments Normal {T} value.
Arguments Throw_TypeError {T}.

(** ** The data *)

(** [PieData] of [types/chart.d.ts]. *)
Record PieData (num : Type) : Type := mkPieData {
  label : string;
  quantity : num;
  color : string
}.
Arguments mkPieData {num} label quantity color.

(** The value interpolated by [`${x}s`]: a number of seconds. *)
Inductive css_time (num : Type) : Type :=
| Seconds (x : num).
Arguments Seconds {num} x.

(** ** The script of the component *)

Section Script.
Context {num : Type} `{Number num}.
(** [props.data] as it was when [setup] ran.  The script runs once, when the
    component is mounted; its plain constants keep the value they got then. *)
Variable mounted : list (PieData num).
(** [props.data] as it is now: what the functions, the [computed] values and
    the template read. *)
Variable data : list (PieData num).

Local Open Scope js_scope.

Definition radius : Z := 16.
Definition viewbox : Z := radius * 2.
Definition circumference : num := of_Z 2 * Math_PI * of_Z radius.
(** A plain [const], not a [computed]: the length is the one at [setup]. *)
Definition minRadiusMask : Z := radius - Z.of_nat (List.length mounted).
Definition strokeWidth : Z := 23.

(** The radius bound in the template: [:r="minRadiusMask + i"], for the
    index [i] of an entry of the list rendered now. *)
Definition maskRadius (i : nat) : Z := minRadiusMask + Z.of_nat i.

Definition totalPercentage : num :=
  fold_left (fun accumulator element => accumulator + quantity element)
            data (of_Z 0).

Definition getSinglePercentage (quantity : num) : num :=
  (quantity * of_Z 100) / totalPercentage.

Definition getSlice (quantity : num) : num :=
  (circumference * getSinglePercentage quantity) / of_Z 100.

(** The loop of [getRotate]: [todo] is [index - counter], the number of
    iterations left.  Reading [props.data[counter]] past the end gives
    [undefined], whose [.quantity] throws. *)
Fixpoint getRotate_loop (todo counter : nat) (angle : num) : completion num :=
  match todo with
  | O => Normal angle
  | S todo' =>
      match nth_error data counter with
      | None => Throw_TypeError
      | Some element =>
          getRotate_loop todo' (S counter)
            (angle + (getSinglePercentage (quantity element) / of_Z 100) * of_Z 360)
      end
  end.

Definition getRotate (index : nat) : completion num :=
  getRotate_loop index 0 (of_Z 0).

(** The angle that one iteration of that loop adds for an element, and the
    update of [angle] it makes. *)
Definition sliceAngle (element : PieData num) : num :=
  (getSinglePercentage (quantity element) / of_Z 100) * of_Z 360.

Definition accumulate (angle : num) (element : PieData num) : num :=
  angle + sliceAngle element.

Definition getDelay (index : nat) : css_time num :=
  Seconds (literal_0_5 + of_Z (Z.of_nat index) / of_Z 3).
End Script.

(** The sum of a list of numbers, accumulated from the left starting at 0,
    the way [reduce] does it in [totalPercentage]. *)
Definition sum {num : Type} `{Number num} (l : list num) : num :=
  fold_left add l (of_Z 0).

(** The dash lengths and the normalized percentages of all slices, in input
    order: what the template's [v-for] computes. *)
Definition sliceDashLengths {num : Type} `{Number num}
    (data : list (PieData num)) : list num :=
  map (fun datum => getSlice data (quantity datum)) data.


(** ** Strings *)

Local Open Scope string_scope.

(** An array read gives a string or [undefined] ([None]); [ToString] is what
    a template literal and [parseInt] apply to it. *)
Definition ToString (v : option string) : string :=
  match v with
  | Some s => s
  | None => "undefined"
  end.

Fixpoint skip (n : nat) (s : string) : string :=
  match n, s with
  | S n', String _ s' => skip n' s'
  | _, _ => s
  end.

(** Whether [s] starts with [pattern]. *)
Fixpoint starts_with (pattern s : string) : bool :=
  match pattern, s with
  | EmptyString, _ => true
  | String a pattern', String b s' => Ascii.eqb b a && starts_with pattern' s'
  | String _ _, EmptyString => false
  end.

(** [s.replace(searchValue, replaceValue)] for a string pattern: only the
    first occurrence is replaced ([replaceValue] holds no [$] pattern here). *)
Fixpoint replace (searchValue replaceValue s : string) : string :=
  if starts_with searchValue s
  then replaceValue ++ skip (String.length searchValue) s
  else match s with
       | EmptyString => EmptyString
       | String c s' => String c (replace searchValue replaceValue s')
       end.

(** [s.split(separator)] for a separator of one character. *)
Fixpoint split (separator : ascii) (s : string) : list string :=
  match s with
  | EmptyString => [EmptyString]
  | String c s' =>
      if Ascii.eqb c separator
      then EmptyString :: split separator s'
      else match split separator s' with
           | piece :: pieces => String c piece :: pieces
           | [] => [String c EmptyString]
           end
  end.

(** The decimal numeral of an index, as [`${index}`] prints it. *)
Definition index_to_string (index : nat) : string :=
  NilZero.string_of_uint (Nat.to_uint index).

(** *** Integer-valued numbers

    [parseInt] returns an integer or [NaN]; the arithmetic of
    [colorBrightness] stays on such values.  The integer is kept exact, as
    binary64 keeps it while its magnitude is at most 2^53. *)
Inductive integer_number : Type :=
| NaN
| Int (z : Z).

Definition gt (x y : integer_number) : bool :=
  match x, y with
  | Int a, Int b => (b <? a)%Z
  | _, _ => false
  end.

Definition plus (x y : integer_number) : integer_number :=
  match x, y with
  | Int a, Int b => Int (a + b)
  | _, _ => NaN
  end.

Definition minus (x y : integer_number) : integer_number :=
  match x, y with
  | Int a, Int b => Int (a - b)
  | _, _ => NaN
  end.

(** [String(x)] of such a value: "NaN", or the decimal numeral of the
    integer, which is what JavaScript prints for an integer-valued double of
    magnitude at most 2^53; statements about a lightness read from an
    arbitrary string carry that bound. *)
Definition Number_toString (x : integer_number) : string :=
  match x with
  | NaN => "NaN"
  | Int z => NilZero.string_of_int (Z.to_int z)
  end.

(** White space that [parseInt] skips, among the code units below 256. *)
Definition is_white_space (c : ascii) : bool :=
  let n := nat_of_ascii c in
  ((9 <=? n) && (n <=? 13) || (n =? 32) || (n =? 160))%nat.

Fixpoint trim_start (s : string) : string :=
  match s with
  | String c s' => if is_white_space c then trim_start s' else s
  | EmptyString => EmptyString
  end.

(** The value of a digit in a radix up to 36, if it is one. *)
Definition digit_value (radix : Z) (c : ascii) : option Z :=
  let n := Z.of_nat (nat_of_ascii c) in
  let v := (if (48 <=? n) && (n <=? 57) then Some (n - 48)
            else if (97 <=? n) && (n <=? 122) then Some (n - 87)
            else if (65 <=? n) && (n <=? 90) then Some (n - 55)
            else None)%Z in
  match v with
  | Some d => if (d <? radix)%Z then Some d else None
  | None => None
  end.

(** The longest prefix of digits, read in the radix; [None] when the first
    character is no digit. *)
Fixpoint parse_digits (radix : Z) (acc : option Z) (s : string) : option Z :=
  match s with
  | EmptyString => acc
  | String c s' =>
      match digit_value radix c with
      | Some d =>
          parse_digits radix
            (Some (match acc with Some a => a * radix + d | None => d end)%Z) s'
      | None => acc
      end
  end.

(** [parseInt(string)] without a radix argument. *)
Definition parseInt (input : option string) : integer_number :=
  let s := trim_start (ToString input) in
  let '(sign, s) :=
    match s with
    | String "-" s' => ((-1)%Z, s')
    | String "+" s' => (1%Z, s')
    | _ => (1%Z, s)
    end in
  let '(radix, s) :=
    match s with
    | String "0" (String "x" s') => (16%Z, s')
    | String "0" (String "X" s') => (16%Z, s')
    | _ => (10%Z, s)
    end in
  match parse_digits radix None s with
  | Some z => Int (sign * z)
  | None => NaN
  end.

(** ** Identifiers and colours *)

(** [getId] of [components/PieChart.vue]. *)
Module PieChart.
Definition getId (label : string) : string :=
  replace " " "-" label.
End PieChart.

(** [getId] and [colorBrightness] of the radial-gradient variant of the
    component ([getId] is also the one printed in the tutorial). *)
Module GradientVariant.
Definition getId (label : string) (index : nat) : string :=
  replace " " "-" label ++ "-" ++ index_to_string index.

Definition colorBrightness (color : string) : completion string :=
  let colorSplit := split "%" color in
  let lightness :=
    if gt (parseInt (nth_error colorSplit 1)) (Int 30)
    then minus (parseInt (nth_error colorSplit 1)) (Int 30)
    else plus (parseInt (nth_error colorSplit 1)) (Int 20) in
  Normal (ToString (nth_error colorSplit 0) ++ "% "
          ++ Number_toString lightness ++ "% "
          ++ ToString (nth_error colorSplit 2)).
End GradientVariant.

(** ** What the template binds *)

(** The [id] attributes of the masks that the [v-for] of each component
    creates, in input order; [idx] counts from [first]. *)
Definition PieChart_maskIds {num : Type} (data : list (PieData num))
  : list string :=
  map (fun datum => PieChart.getId (label datum)) data.

Fixpoint GradientVariant_maskIds {num : Type} (first : nat)
    (data : list (PieData num)) : list string :=
  match data with
  | [] => []
  | datum :: rest =>
      GradientVariant.getId (label datum) first
      :: GradientVariant_maskIds (S first) rest
  end.

(** The integer that a decimal numeral denotes, read from its most
    significant digit on, after the digits that gave [acc]. *)
Fixpoint uint_value (acc : Z) (d : Decimal.uint) : Z :=
  match d with
  | Decimal.Nil => acc
  | Decimal.D0 d' => uint_value (acc * 10 + 0) d'
  | Decimal.D1 d' => uint_value (acc * 10 + 1) d'
  | Decimal.D2 d' => uint_value (acc * 10 + 2) d'
  | Decimal.D3 d' => uint_value (acc * 10 + 3) d'
  | Decimal.D4 d' => uint_value (acc * 10 + 4) d'
  | Decimal.D5 d' => uint_value (acc * 10 + 5) d'
  | Decimal.D6 d' => uint_value (acc * 10 + 6) d'
  | Decimal.D7 d' => uint_value (acc * 10 + 7) d'
  | Decimal.D8 d' => uint_value (acc * 10 + 8) d'
  | Decimal.D9 d' => uint_value (acc * 10 + 9) d'
  end.

(** Whether a character occurs in a string. *)
Fixpoint occurs (c : ascii) (s : string) : bool :=
  match s with
  | EmptyString => false
  | String c' s' => Ascii.eqb c' c || occurs c s'
  end.

(** A quantity that is zero in binary64: [0] or [-0]. *)
Definition zero_quantity (datum : PieData float) : Prop :=
  quantity datum = 0%float \/ quantity datum = (-0)%float.


(** ** Sample data *)

(** The mock data of [views/ChartView.vue], as the tutorial prints it. *)
Definition mockData {num : Type} `{Number num} : list (PieData num) :=
  [ mkPieData "Lorem" (of_Z 70) "hsl(20 60% 50%)";
    mkPieData "Ipsum Dolor" (of_Z 10) "hsl(180 60% 50%)";
    mkPieData "Sit" (of_Z 20) "hsl(200 60% 50%)" ].

(** Two entries that share a label. *)
Definition sameLabelData {num : Type} `{Number num} : list (PieData num) :=
  [ mkPieData "Sit" (of_Z 70) "hsl(20 60% 50%)";
    mkPieData "Sit" (of_Z 30) "hsl(200 60% 50%)" ].

(** Slices with the given integer quantities. *)
Definition slicesOf {num : Type} `{Number num} (quantities : list Z)
  : list (PieData num) :=
  map (fun q => mkPieData "Lorem" (of_Z q) "hsl(20 60% 50%)") quantities.

(** ** The templates *)

(** Sequencing of two steps of which the first may throw. *)
Definition bind {A B : Type} (c : completion A) (k : A -> completion B)
  : completion B :=
  match c with
  | Normal a => k a
  | Throw_TypeError => Throw_TypeError
  end.

(** [v-for="(item, i) in items"]: the body is evaluated for each item with
    its index, in order; a throw ends the rendering. *)
Fixpoint v_for {A B : Type} (body : A -> nat -> completion B) (i : nat)
    (items : list A) : completion (list B) :=
  match items with
  | [] => Normal []
  | item :: rest =>
      bind (body item i) (fun b =>
      bind (v_for body (S i) rest) (fun bs => Normal (b :: bs)))
  end.

(** What the template binds for one entry: the [:key], the mask with its
    circle, and the circle of the slice with its style.  The numbers that the
    template interpolates into strings are kept as numbers. *)
Record MaskedCircle (num : Type) : Type := mkMaskedCircle {
  slice_key : string;                 (* [:key] *)
  slice_mask_id : string;             (* [<mask :id>] *)
  slice_mask_r : Z;                   (* [:r] of the mask's circle *)
  slice_mask_center : Z * Z;          (* its [:cx], [:cy] *)
  slice_r : Z;                        (* [:r] of the slice's circle *)
  slice_center : Z * Z;               (* its [:cx], [:cy] *)
  slice_mask : string;                (* [:mask] *)
  slice_rotate : num;                 (* [--rotate], in deg *)
  slice_color : string;               (* [--color] *)
  slice_delay : css_time num;         (* [--delay] *)
  slice_dasharray : num * num;        (* [stroke-dasharray], in px *)
  slice_stroke_width : Z;             (* [stroke-width] *)
  slice_title : string * num          (* [<title>]: label and quantity *)
}.

(** The [<radialGradient>] of the variant with its two stops, and the entry's
    mask and circle. *)
Record GradientCircle (num : Type) : Type := mkGradientCircle {
  gradient_id : string;
  gradient_stop_0 : string;
  gradient_stop_100 : string;
  gradient_circle : MaskedCircle num
}.

(** [`${datum.label}-${i}`] *)
Definition template_key (text : string) (index : nat) : string :=
  (text ++ "-" ++ index_to_string index)%string.

(** The body of the [v-for] of [components/PieChart.vue], in a component
    that was set up with the list [mounted] and now renders [data]. *)
Definition PieChart_circle {num : Type} `{Number num}
    (mounted data : list (PieData num)) (datum : PieData num) (i : nat)
  : completion (MaskedCircle num) :=
  bind (getRotate data i) (fun rotate =>
  Normal {| slice_key := template_key (label datum) i;
            slice_mask_id := PieChart.getId (label datum);
            slice_mask_r := maskRadius mounted i;
            slice_mask_center := (radius, radius);
            slice_r := radius;
            slice_center := (radius, radius);
            slice_mask := "url(#" ++ PieChart.getId (label datum) ++ ")";
            slice_rotate := rotate;
            slice_color := color datum;
            slice_delay := getDelay i;
            slice_dasharray := (getSlice data (quantity datum), circumference);
            slice_stroke_width := strokeWidth;
            slice_title := (label datum, quantity datum) |}).

Definition PieChart_template {num : Type} `{Number num}
    (mounted data : list (PieData num))
  : completion (list (MaskedCircle num)) :=
  v_for (PieChart_circle mounted data) 0 data.

(** The body of the [v-for] of the variant. *)
Definition GradientVariant_circle {num : Type} `{Number num}
    (mounted data : list (PieData num)) (datum : PieData num) (idx : nat)
  : completion (GradientCircle num) :=
  bind (GradientVariant.colorBrightness (color datum)) (fun highlight =>
  bind (getRotate data idx) (fun rotate =>
  Normal {| gradient_id := "gradient-" ++ GradientVariant.getId (label datum) idx;
            gradient_stop_0 := highlight;
            gradient_stop_100 := color datum;
            gradient_circle :=
              {| slice_key := template_key (label datum) idx;
                 slice_mask_id := GradientVariant.getId (label datum) idx;
                 slice_mask_r := maskRadius mounted idx;
                 slice_mask_center := (radius, radius);
                 slice_r := radius;
                 slice_center := (radius, radius);
                 slice_mask :=
                   "url(#" ++ GradientVariant.getId (label datum) idx ++ ")";
                 slice_rotate := rotate;
                 slice_color :=
                   "url(#gradient-"
                   ++ GradientVariant.getId (label datum) idx ++ ")";
                 slice_delay := getDelay idx;
                 slice_dasharray :=
                   (getSlice data (quantity datum), circumference);
                 slice_stroke_width := strokeWidth;
                 slice_title := (label datum, quantity datum) |} |})).

Definition GradientVariant_template {num : Type} `{Number num}
    (mounted data : list (PieData num))
  : completion (list (GradientCircle num)) :=
  v_for (GradientVariant_circle mounted data) 0 data.

(** Every [id] attribute that a rendering of the variant puts into the
    document: the masks' and the gradients'. *)
Definition document_ids {num : Type} (circles : list (GradientCircle num))
  : list string :=
  map (fun c => slice_mask_id (gradient_circle c)) circles
  ++ map (@gradient_id num) circles.

(** The mask radii of a rendering, in input order. *)
Definition mask_radii {num : Type}
    (rendering : completion (list (MaskedCircle num))) : completion (list Z) :=
  bind rendering (fun circles => Normal (map (@slice_mask_r num) circles)).

(** The mask radius as the specification words it, a function of the number
    of slices of the list it is asked about:
    [maskRadius(baseRadius, sliceCount, index)]. *)
Definition spec_maskRadius (baseRadius : Z) (sliceCount index : nat) : Z :=
  baseRadius - Z.of_nat sliceCount + Z.of_nat index.

(** ** Checks on binary64 *)










(** * Properties *)

(** ** The loop of [getRotate], over any numbers *)

Section RotateLoop.
Context {num : Type} `{Number num}.
Variable data : list (PieData num).

Lemma skipn_nth_error (T : Type) (l : list T) (n : nat) (x : T) :
  nth_error l n = Some x -> skipn n l = x :: skipn (S n) l.
Proof.
  revert n; induction l as [|y l IH]; intros [|n] E; simpl in *;
    try discriminate.
  - now inversion E.
  - now apply IH.
Qed.

Lemma getRotate_loop_in_bounds (todo counter : nat) (angle : num) :
  (counter + todo <= List.length data)%nat ->
  getRotate_loop data todo counter angle
  = Normal (fold_left (accumulate data) (firstn todo (skipn counter data)) angle).
Proof.
  revert counter angle; induction todo as [|todo IH]; intros counter angle Hle.
  - reflexivity.
  - simpl getRotate_loop.
    destruct (nth_error data counter) as [element|] eqn:E.
    + rewrite IH by lia.
      rewrite (skipn_nth_error _ _ E). reflexivity.
    + apply nth_error_None in E. lia.
Qed.

Lemma getRotate_loop_out_of_bounds (todo counter : nat) (angle : num) :
  (counter <= List.length data)%nat ->
  (List.length data < counter + todo)%nat ->
  getRotate_loop data todo counter angle = Throw_TypeError.
Proof.
  revert counter angle; induction todo as [|todo IH]; intros counter angle Hc Hlt.
  - lia.
  - simpl.
    destruct (nth_error data counter) as [element|] eqn:E; [|reflexivity].
    assert (counter < List.length data)%nat
      by (apply nth_error_Some; congruence).
    apply IH; lia.
Qed.

(** [getRotate] returns the left-to-right accumulation over the entries
    before [index]. *)
Lemma getRotate_prefix (index : nat) :
  (index <= List.length data)%nat ->
  getRotate data index
  = Normal (fold_left (accumulate data) (firstn index data) (of_Z 0)).
Proof.
  intros Hle. unfold getRotate.
  now rewrite getRotate_loop_in_bounds by lia.
Qed.

Lemma getRotate_throws (index : nat) :
  (List.length data < index)%nat ->
  getRotate data index = Throw_TypeError.
Proof.
  intros Hlt. unfold getRotate.
  apply getRotate_loop_out_of_bounds; lia.
Qed.

Lemma totalPercentage_sum :
  totalPercentage data = sum (map (@quantity num) data).
Proof.
  unfold totalPercentage, sum.
  generalize (of_Z 0). induction data as [|d l IH]; intros a; simpl.
  - reflexivity.
  - apply IH.
Qed.
End RotateLoop.

(** ** Exact arithmetic *)

Section Exact.
Local Open Scope R_scope.

Lemma fold_left_Rplus (l : list R) (a : R) :
  fold_left Rplus l a = a + sum l.
Proof.
  unfold sum; simpl. revert a.
  induction l as [|x l IH]; intros a; simpl.
  - lra.
  - rewrite (IH (a + x)), (IH (0 + x)). lra.
Qed.

Lemma sum_nil : sum (@nil R) = 0.
Proof. reflexivity. Qed.

Lemma sum_cons (x : R) (l : list R) : sum (x :: l) = x + sum l.
Proof.
  unfold sum at 1; simpl. rewrite fold_left_Rplus. lra.
Qed.

Lemma sum_app (l1 l2 : list R) : sum (l1 ++ l2) = sum l1 + sum l2.
Proof.
  induction l1 as [|x l1 IH]; simpl.
  - rewrite sum_nil. lra.
  - rewrite !sum_cons, IH. lra.
Qed.






Variable data : list (PieData R).



Hypothesis non_empty : data <> [].
Hypothesis positive : Forall (fun datum => 0 < quantity datum) data.








End Exact.

(** ** The mock data *)

(** X3: the mock data in binary64: the dash lengths 70.37167544041137,
    10.053096491487338 and 20.106192982974676 add up to the circumference
    100.53096491487338, and the slices start at 0, 251.99999999999997 and 288
    degrees. *)
Example mockData_binary64 :
  sliceDashLengths (num:=float) mockData
  = [0x1.197c987c952c4p+6; 0x1.41b2f769cf0e0p+3; 0x1.41b2f769cf0e0p+4]%float
  /\ sum (sliceDashLengths (num:=float) mockData) = circumference
  /\ map (getRotate (num:=float) mockData) [0; 1; 2; 3]
     = [Normal 0; Normal 0x1.f7fffffffffffp+7; Normal 288; Normal 360]%float.
Proof. repeat split. Qed.

(** In exact arithmetic the slices of the mock data start at 0, 252 and 288
    degrees. *)
Example mockData_rotations_exact :
  map (getRotate (num:=R) mockData) [0; 1; 2; 3]
  = [Normal 0; Normal 252; Normal 288; Normal 360]%R.
Proof.
  unfold getRotate, mockData; simpl.
  unfold getSinglePercentage, totalPercentage; simpl.
  replace (0 + 70 + 10 + 20)%R with 100%R by lra.
  f_equal.
  f_equal; [f_equal; field|].
  f_equal; [f_equal; field|].
  f_equal. f_equal. field.
Qed.

(** ** Zero total (C3) *)

Section ZeroTotal.
Lemma totalPercentage_zero (data : list (PieData float)) :
  Forall zero_quantity data -> totalPercentage data = 0%float.
Proof.
  unfold totalPercentage. simpl of_Z.
  induction 1 as [|datum l Hq _ IH]; simpl.
  - reflexivity.
  - destruct Hq as [E|E]; rewrite E; exact IH.
Qed.

Variable data : list (PieData float).
Hypothesis all_zero : Forall zero_quantity data.

Lemma getSinglePercentage_NaN (datum : PieData float) :
  zero_quantity datum ->
  getSinglePercentage data (quantity datum) = PrimFloat.nan.
Proof.
  intros Hq. unfold getSinglePercentage. rewrite (totalPercentage_zero all_zero).
  destruct Hq as [E|E]; rewrite E; reflexivity.
Qed.

Lemma accumulate_NaN (angle : float) (datum : PieData float) :
  angle = 0%float \/ angle = PrimFloat.nan ->
  zero_quantity datum ->
  accumulate data angle datum = PrimFloat.nan.
Proof.
  intros Ha Hq. unfold accumulate, sliceAngle.
  rewrite (getSinglePercentage_NaN Hq).
  destruct Ha as [E|E]; rewrite E; reflexivity.
Qed.

Lemma fold_left_accumulate_NaN (l : list (PieData float)) (angle : float) :
  angle = 0%float \/ angle = PrimFloat.nan ->
  Forall zero_quantity l -> l <> [] ->
  fold_left (accumulate data) l angle = PrimFloat.nan.
Proof.
  intros Ha Hl. revert angle Ha.
  induction Hl as [|datum l Hq Hl IH]; intros angle Ha Hne; [congruence|].
  cbn [fold_left]. rewrite (accumulate_NaN Ha Hq).
  destruct l as [|datum' l']; [reflexivity|].
  apply IH; [now right|discriminate].
Qed.

Lemma getRotate_NaN (index : nat) :
  1 <= index <= List.length data ->
  getRotate data index = Normal PrimFloat.nan.
Proof.
  intros [H1 Hn]. rewrite getRotate_prefix by exact Hn. f_equal.
  apply fold_left_accumulate_NaN.
  - now left.
  - rewrite <- (firstn_skipn index data) in all_zero.
    now apply Forall_app in all_zero.
  - destruct index as [|index]; [lia|].
    destruct data; [simpl in Hn; lia|discriminate].
Qed.
End ZeroTotal.

(** C3: [totalPercentage] is the sum of the [quantity] fields.  When every
    quantity is zero (the empty list included) that sum is 0, and then, in
    binary64, [getSinglePercentage] of each entry's quantity is 0/0 = NaN and
    so is its dash length; nothing guards against it and nothing throws:
    [getSlice] returns NaN, and [getRotate] returns normally at every index
    the template passes, with NaN from the second slice on. *)
Theorem zero_total_is_not_guarded :
  (forall (num : Type) (N : Number num) (data : list (PieData num)),
      totalPercentage data = sum (map (@quantity num) data))
  /\ totalPercentage (num:=float) [] = 0%float
  /\ PrimFloat.is_nan (getSinglePercentage (num:=float) [] 0%float) = true
  /\ forall data : list (PieData float),
       Forall zero_quantity data ->
       totalPercentage data = 0%float
       /\ (forall datum, In datum data ->
             PrimFloat.is_nan (getSinglePercentage data (quantity datum)) = true
             /\ PrimFloat.is_nan (getSlice data (quantity datum)) = true)
       /\ getRotate data 0 = Normal 0%float
       /\ (forall index, 1 <= index <= List.length data ->
             getRotate data index = Normal PrimFloat.nan).
Proof.
  split; [|split; [|split]].
  - intros num N data. apply totalPercentage_sum.
  - reflexivity.
  - reflexivity.
  - intros data Hzero.
    split; [exact (totalPercentage_zero Hzero)|].
    split; [|split; [reflexivity|]].
    + intros datum Hin.
      assert (Hq : zero_quantity datum)
        by (rewrite Forall_forall in Hzero; now apply Hzero).
      unfold getSlice. rewrite (getSinglePercentage_NaN Hzero Hq).
      split; reflexivity.
    + intros index Hindex. exact (getRotate_NaN Hzero Hindex).
Qed.

Lemma zero_total_is_not_guarded_witness :
  Forall zero_quantity (slicesOf (num:=float) [0; 0]%Z)
  /\ totalPercentage (slicesOf (num:=float) [0; 0]%Z) = 0%float
  /\ getRotate (slicesOf (num:=float) [0; 0]%Z) 1 = Normal PrimFloat.nan.
Proof.
  assert (Hzero : Forall zero_quantity (slicesOf (num:=float) [0; 0]%Z))
    by (repeat constructor; left; reflexivity).
  pose proof (proj2 (proj2 (proj2 zero_total_is_not_guarded)) _ Hzero) as Hall.
  split; [exact Hzero|split].
  - exact (proj1 Hall).
  - apply (proj2 (proj2 (proj2 Hall))). simpl. lia.
Defined.

(** ** Bounds of [getRotate] (C9) *)

(** C9: [getRotate] reads the list at every position below its index with no
    bounds check: it returns normally exactly when the index is at most the
    length of the list, each position below the index then holding an entry;
    for a greater index the read at the position [length] finds nothing and
    the call throws. *)
Theorem getRotate_bounds (num : Type) (N : Number num)
    (data : list (PieData num)) (index : nat) :
  (index <= List.length data ->
   (exists angle, getRotate data index = Normal angle)
   /\ forall k, k < index -> exists element, nth_error data k = Some element)
  /\ (List.length data < index ->
      nth_error data (List.length data) = None
      /\ getRotate data index = Throw_TypeError).
Proof.
  split.
  - intros Hle. split.
    + eexists. apply getRotate_prefix. exact Hle.
    + intros k Hk.
      destruct (nth_error data k) as [element|] eqn:E; [now exists element|].
      apply nth_error_None in E. lia.
  - intros Hlt. split.
    + apply nth_error_None. lia.
    + apply getRotate_throws. exact Hlt.
Qed.

Lemma getRotate_bounds_witness :
  (exists angle, getRotate (num:=float) mockData 3 = Normal angle)
  /\ getRotate (num:=float) mockData 4 = Throw_TypeError.
Proof.
  split.
  - apply (proj1 (@getRotate_bounds float binary64 mockData 3)). simpl; lia.
  - apply (proj2 (@getRotate_bounds float binary64 mockData 4)). simpl; lia.
Defined.

(** ** Identifiers (C4) *)

Section Identifiers.
Local Open Scope string_scope.

Lemma string_app_assoc (a b c : string) : (a ++ b) ++ c = a ++ (b ++ c).
Proof.
  induction a as [|x a IH]; simpl; [reflexivity|now rewrite IH].
Qed.

Lemma replace_cons_other (c : ascii) (s : string) :
  Ascii.eqb c " " = false ->
  replace " " "-" (String c s) = String c (replace " " "-" s).
Proof.
  intros Hc. cbn [replace starts_with]. now rewrite Hc.
Qed.

Lemma replace_cons_space (s : string) :
  replace " " "-" (String " " s) = String "-" s.
Proof. reflexivity. Qed.

(** Only the first space is replaced: what follows it is kept as it is. *)
Lemma replace_first_space (before after : string) :
  occurs " " before = false ->
  replace " " "-" (before ++ " " ++ after) = before ++ "-" ++ after.
Proof.
  induction before as [|c before IH]; intros Hno.
  - reflexivity.
  - cbn [occurs] in Hno. apply orb_false_elim in Hno as [Hc Hno].
    cbn [append]. rewrite replace_cons_other by exact Hc.
    f_equal. now apply IH.
Qed.

Lemma replace_no_space (s : string) :
  occurs " " s = false -> replace " " "-" s = s.
Proof.
  induction s as [|c s IH]; intros Hno.
  - reflexivity.
  - cbn [occurs] in Hno. apply orb_false_elim in Hno as [Hc Hno].
    rewrite replace_cons_other by exact Hc. f_equal. now apply IH.
Qed.

Lemma occurs_app_separator (c : ascii) (a b : string) :
  occurs c (a ++ String c b) = true.
Proof.
  induction a as [|c' a IH]; simpl.
  - now rewrite Ascii.eqb_refl.
  - rewrite IH. apply orb_true_r.
Qed.

(** The text after the last separator determines itself. *)
Lemma append_separator_inj (c : ascii) (a b x y : string) :
  occurs c x = false -> occurs c y = false ->
  a ++ String c x = b ++ String c y -> a = b /\ x = y.
Proof.
  intros Hx Hy. revert b.
  induction a as [|ca a IH]; intros [|cb b] E; simpl in E.
  - now injection E.
  - injection E as _ E. subst x.
    now rewrite occurs_app_separator in Hx.
  - injection E as _ E. subst y.
    now rewrite occurs_app_separator in Hy.
  - injection E as Ec E. apply IH in E as [-> ->]. now subst.
Qed.

Lemma occurs_minus_uint (d : Decimal.uint) :
  occurs "-" (NilEmpty.string_of_uint d) = false.
Proof. induction d; simpl; auto. Qed.

Lemma occurs_minus_index (index : nat) :
  occurs "-" (index_to_string index) = false.
Proof.
  unfold index_to_string, NilZero.string_of_uint.
  destruct (Nat.to_uint index) eqn:E; try reflexivity;
    rewrite <- E; apply occurs_minus_uint.
Qed.

Lemma to_uint_nonnil (n : nat) : Nat.to_uint n <> Decimal.Nil.
Proof.
  intros E. pose proof (DecimalNat.Unsigned.of_to n) as Hn.
  rewrite E in Hn. simpl in Hn. subst n. discriminate E.
Qed.

Lemma index_to_string_inj (i j : nat) :
  index_to_string i = index_to_string j -> i = j.
Proof.
  unfold index_to_string. intros E.
  apply (f_equal NilZero.uint_of_string) in E.
  rewrite !NilZero.usu in E by apply to_uint_nonnil.
  injection E as E. now apply DecimalNat.Unsigned.to_uint_inj.
Qed.

(** In the variant, identifiers at distinct indices are distinct, whatever
    the labels. *)
Lemma variant_getId_index (label1 label2 : string) (i j : nat) :
  GradientVariant.getId label1 i = GradientVariant.getId label2 j -> i = j.
Proof.
  unfold GradientVariant.getId. intros E.
  apply append_separator_inj in E as [_ E];
    auto using occurs_minus_index, index_to_string_inj.
Qed.
End Identifiers.

Section MaskIds.
Local Open Scope string_scope.
Variable num : Type.

Lemma variant_maskIds_index (first : nat) (data : list (PieData num)) (id : string) :
  In id (GradientVariant_maskIds first data) ->
  exists text index, first <= index /\ id = GradientVariant.getId text index.
Proof.
  revert first; induction data as [|datum rest IH]; intros first Hin.
  - contradiction.
  - destruct Hin as [<- | Hin].
    + exists (label datum), first. split; [lia|reflexivity].
    + apply IH in Hin as (text & index & Hle & ->).
      exists text, index. split; [lia|reflexivity].
Qed.

(** X1: in the variant the mask identifiers of a list are pairwise distinct,
    whatever the labels are. *)
Theorem variant_maskIds_distinct (first : nat) (data : list (PieData num)) :
  NoDup (GradientVariant_maskIds first data).
Proof.
  revert first; induction data as [|datum rest IH]; intros first; simpl.
  - constructor.
  - constructor; [|apply IH].
    intros Hin. apply variant_maskIds_index in Hin as (text & index & Hle & E).
    apply variant_getId_index in E. lia.
Qed.
End MaskIds.

(** X2: both versions of [getId] replace only the first space of the label:
    the text after it is kept, later spaces included, and a label without a
    space is kept whole; so "Ipsum Dolor" and "Ipsum-Dolor" get the same
    identifier (at the same index, in the variant). *)
Theorem getId_first_space_only :
  (forall before after : string,
      occurs " " before = false ->
      PieChart.getId (before ++ " " ++ after) = (before ++ "-" ++ after)%string
      /\ forall index,
          GradientVariant.getId (before ++ " " ++ after) index
          = (before ++ "-" ++ after ++ "-" ++ index_to_string index)%string)
  /\ (forall text : string,
        occurs " " text = false -> PieChart.getId text = text)
  /\ PieChart.getId "Ipsum Dolor" = PieChart.getId "Ipsum-Dolor"
  /\ (forall index, GradientVariant.getId "Ipsum Dolor" index
                    = GradientVariant.getId "Ipsum-Dolor" index)
  /\ GradientVariant.getId "Ipsum Dolor" 1 = "Ipsum-Dolor-1"%string
  /\ PieChart.getId "Ipsum Dolor Sit Amet" = "Ipsum-Dolor Sit Amet"%string.
Proof.
  split; [|split; [|repeat split]].
  - intros before after Hno. unfold PieChart.getId, GradientVariant.getId.
    rewrite replace_first_space by exact Hno. split; [reflexivity|].
    intros index. now rewrite !string_app_assoc.
  - intros text Hno. now apply replace_no_space.
Qed.

Lemma getId_first_space_only_witness :
  PieChart.getId "Lorem Ipsum Dolor" = "Lorem-Ipsum Dolor"%string.
Proof.
  exact (proj1 (proj1 getId_first_space_only "Lorem" "Ipsum Dolor" eq_refl)).
Defined.

(** C4, the base component: its [getId] takes the label alone, so two entries
    with one label, at the indices 0 and 1, get one identifier; the variant
    gives them two. *)
Theorem base_getId_ignores_the_index :
  PieChart_maskIds (sameLabelData (num:=float)) = ["Sit"; "Sit"]%string
  /\ ~ NoDup (PieChart_maskIds (sameLabelData (num:=float)))
  /\ GradientVariant_maskIds 0 (sameLabelData (num:=float))
     = ["Sit-0"; "Sit-1"]%string.
Proof.
  split; [reflexivity|split; [|reflexivity]].
  intros Hnd. inversion Hnd as [|? ? Hnotin _]. apply Hnotin. now left.
Qed.

(** ** Colour brightness (C5, C6) *)

Section ColorBrightness.
Local Open Scope string_scope.

Lemma split_no_separator (separator : ascii) (s : string) :
  occurs separator s = false -> split separator s = [s].
Proof.
  induction s as [|c s IH]; intros Hno.
  - reflexivity.
  - cbn [occurs] in Hno. apply orb_false_elim in Hno as [Hc Hno].
    cbn [split]. rewrite Hc, (IH Hno). reflexivity.
Qed.

Lemma split_app_separator (separator : ascii) (a b : string) :
  occurs separator a = false ->
  split separator (a ++ String separator b) = a :: split separator b.
Proof.
  induction a as [|c a IH]; intros Hno.
  - cbn [append split]. now rewrite Ascii.eqb_refl.
  - cbn [occurs] in Hno. apply orb_false_elim in Hno as [Hc Hno].
    cbn [append split]. rewrite Hc, (IH Hno). reflexivity.
Qed.

(** A string with exactly two separators splits into its three pieces. *)
Lemma split_three (separator : ascii) (p0 p1 p2 : string) :
  occurs separator p0 = false ->
  occurs separator p1 = false ->
  occurs separator p2 = false ->
  split separator (p0 ++ String separator (p1 ++ String separator p2))
  = [p0; p1; p2].
Proof.
  intros H0 H1 H2.
  rewrite split_app_separator by exact H0.
  rewrite split_app_separator by exact H1.
  now rewrite split_no_separator by exact H2.
Qed.

(** *** Reading back a printed integer *)

Ltac eval_white_space :=
  repeat match goal with
         | |- context [is_white_space ?c] =>
             let v := eval vm_compute in (is_white_space c) in
             change (is_white_space c) with v
         end.

Ltac eval_digit_value :=
  repeat match goal with
         | |- context [digit_value ?r ?c] =>
             let v := eval vm_compute in (digit_value r c) in
             change (digit_value r c) with v
         end.

Lemma parse_digits_uint (d : Decimal.uint) (acc : Z) :
  parse_digits 10 (Some acc) (NilEmpty.string_of_uint d)
  = Some (uint_value acc d).
Proof.
  revert acc; induction d; intros acc; simpl; try reflexivity; apply IHd.
Qed.

Lemma minus_one_mul (z : Z) : (-1 * z = - z)%Z.
Proof. lia. Qed.

Lemma parseInt_numeral (d : Decimal.uint) :
  d <> Decimal.Nil ->
  parseInt (Some (String " " (NilEmpty.string_of_uint d)))
  = Int (uint_value 0 d)
  /\ parseInt (Some (String " " (String "-" (NilEmpty.string_of_uint d))))
     = Int (- uint_value 0 d).
Proof.
  intros Hd. destruct d as [|d|d|d|d|d|d|d|d|d|d]; [congruence|..].
  1: destruct d.
  all: unfold parseInt; cbn [ToString trim_start NilEmpty.string_of_uint];
    eval_white_space; cbv iota; cbn [parse_digits];
    eval_digit_value; cbv iota beta;
    rewrite ?parse_digits_uint, ?Z.mul_1_l, ?minus_one_mul;
    split; reflexivity.
Qed.

Lemma uint_value_acc (d : Decimal.uint) (acc : positive) :
  uint_value (Zpos acc) d = Zpos (Pos.of_uint_acc d acc).
Proof.
  revert acc; induction d; intros acc; cbn [uint_value Pos.of_uint_acc];
    try reflexivity; rewrite <- IHd; f_equal; lia.
Qed.

Lemma uint_value_of_uint (d : Decimal.uint) :
  uint_value 0 d = Z.of_N (Pos.of_uint d).
Proof.
  induction d; cbn [uint_value Pos.of_uint]; try reflexivity;
    try exact IHd; simpl Z.add; rewrite uint_value_acc; reflexivity.
Qed.

(** [parseInt] reads back the integer that [Number_toString] printed, also
    after a space. *)
Lemma parseInt_Number_toString (z : Z) :
  parseInt (Some (String " " (Number_toString (Int z)))) = Int z.
Proof.
  unfold Number_toString.
  destruct z as [|p|p]; [reflexivity|..]; cbn [Z.to_int NilZero.string_of_int];
    pose proof (DecimalPos.Unsigned.to_uint_nonnil p) as Hnil;
    pose proof (DecimalPos.Unsigned.of_to p) as Hp;
    unfold NilZero.string_of_uint;
    destruct (Pos.to_uint p) eqn:E; try congruence; rewrite <- E in *;
    destruct (@parseInt_numeral _ Hnil) as [Hpos Hneg];
    rewrite ?Hpos, ?Hneg, uint_value_of_uint, Hp; reflexivity.
Qed.

Lemma occurs_percent_uint (d : Decimal.uint) :
  occurs "%" (NilEmpty.string_of_uint d) = false.
Proof. induction d; simpl; auto. Qed.

Lemma occurs_percent_number (x : integer_number) :
  occurs "%" (Number_toString x) = false.
Proof.
  destruct x as [|z]; [reflexivity|].
  unfold Number_toString, NilZero.string_of_int, NilZero.string_of_uint.
  destruct (Z.to_int z) as [d|d]; destruct d; try reflexivity;
    cbn [occurs]; try apply occurs_percent_uint;
    match goal with
    | |- context [NilEmpty.string_of_uint ?d] =>
        apply (occurs_percent_uint d)
    end.
Qed.
End ColorBrightness.

(** C5, the code: the colour "red" has no "%" and no number, yet
    [colorBrightness] returns normally, with a string that is no colour; so
    it does with one "%" only, or with no digits between the two. *)
Lemma colorBrightness_accepts_malformed :
  GradientVariant.colorBrightness "red" = Normal "red% NaN% undefined"%string
  /\ GradientVariant.colorBrightness "hsl(20 60% 50)"
     = Normal "hsl(20 60% 20% undefined"%string
  /\ GradientVariant.colorBrightness "hsl(20 x% y%)"
     = Normal "hsl(20 x% NaN% )"%string
  /\ GradientVariant.colorBrightness "red" <> Throw_TypeError.
Proof.
  split; [reflexivity|split; [reflexivity|split; [reflexivity|]]].
  intros E. vm_compute in E. discriminate E.
Qed.

(** C5, as amended: [colorBrightness] validates nothing and never throws: it
    always returns a string.  When the text between the first and the second
    "%" does not start with an integer (or is missing), the lightness it
    writes is "NaN"; when the string has no "%" at all, the result is the
    whole string followed by "% NaN% undefined". *)
Theorem colorBrightness_never_rejects (color : string) :
  (exists result, GradientVariant.colorBrightness color = Normal result)
  /\ (parseInt (nth_error (split "%" color) 1) = NaN ->
      GradientVariant.colorBrightness color
      = Normal (ToString (nth_error (split "%" color) 0) ++ "% NaN% "
                ++ ToString (nth_error (split "%" color) 2))%string)
  /\ (occurs "%" color = false ->
      GradientVariant.colorBrightness color
      = Normal (color ++ "% NaN% undefined")%string).
Proof.
  split; [|split].
  - eexists. reflexivity.
  - intros Hnan. unfold GradientVariant.colorBrightness.
    cbv zeta. rewrite Hnan. reflexivity.
  - intros Hno. unfold GradientVariant.colorBrightness.
    rewrite split_no_separator by exact Hno. reflexivity.
Qed.

Lemma colorBrightness_never_rejects_witness :
  GradientVariant.colorBrightness "rgb(1,2,3)"
  = Normal "rgb(1,2,3)% NaN% undefined"%string.
Proof.
  exact (proj2 (proj2 (colorBrightness_never_rejects "rgb(1,2,3)")) eq_refl).
Defined.

(** C6, as amended: for a colour made of the hue and the saturation, a "%",
    the lightness, a "%" and a rest, none of the three pieces holding a "%",
    whose lightness reads as the integer [v]: [colorBrightness] returns the
    first piece unchanged, the lightness replaced by [v - 30] when [v]
    exceeds 30 and by [v + 20] otherwise, and the rest unchanged, each "%"
    written back as "% ".  The result is a colour of the same shape: it splits
    into the same first piece, the new lightness and the rest, and its
    lightness reads as the new value. *)
Theorem colorBrightness_adjusts_lightness
    (hue_saturation lightness rest : string) (v : Z) :
  occurs "%" hue_saturation = false ->
  occurs "%" lightness = false ->
  occurs "%" rest = false ->
  parseInt (Some lightness) = Int v ->
  (Z.abs v <= 2 ^ 53)%Z ->
  let adjusted := Int (if (30 <? v)%Z then v - 30 else v + 20) in
  let result :=
    (hue_saturation ++ "% " ++ Number_toString adjusted ++ "% " ++ rest)%string in
  GradientVariant.colorBrightness
    (hue_saturation ++ "%" ++ lightness ++ "%" ++ rest)%string
  = Normal result
  /\ split "%" result
     = [hue_saturation; (" " ++ Number_toString adjusted)%string;
        (" " ++ rest)%string]
  /\ parseInt (nth_error (split "%" result) 1) = adjusted.
Proof.
  intros H0 H1 H2 Hv _ adjusted result.
  assert (Hsplit : split "%" result
                   = [hue_saturation; (" " ++ Number_toString adjusted)%string;
                      (" " ++ rest)%string]).
  { unfold result.
    change (split "%" (hue_saturation
                       ++ String "%" ((" " ++ Number_toString adjusted)
                                      ++ String "%" (" " ++ rest)))%string
            = [hue_saturation; (" " ++ Number_toString adjusted)%string;
               (" " ++ rest)%string]).
    apply split_three; cbn [append occurs]; try assumption.
    apply occurs_percent_number. }
  split; [|split; [exact Hsplit|]].
  - unfold GradientVariant.colorBrightness.
    cbn [append]. rewrite split_three by assumption.
    cbn [nth_error]. rewrite Hv. cbn [gt ToString].
    unfold result, adjusted. destruct (30 <? v)%Z; reflexivity.
  - rewrite Hsplit. cbn [nth_error append]. unfold adjusted.
    apply parseInt_Number_toString.
Qed.

Lemma colorBrightness_adjusts_lightness_witness :
  GradientVariant.colorBrightness "hsl(20 60% 50%)"
  = Normal "hsl(20 60% 20% )"%string.
Proof.
  apply (@colorBrightness_adjusts_lightness "hsl(20 60" " 50" ")" 50);
    try reflexivity.
  simpl; lia.
Defined.

(** C6, the code: the result is not the same string with the lightness
    replaced, since each "%" comes back followed by a space:
    "hsl(20 60% 50%)" gives "hsl(20 60% 20% )", not "hsl(20 60% 20%)".  The
    component that is adjusted is the text between the first and the second
    "%": of the three numbers "20%60%50" the second is lowered and the third
    kept.  With commas between the components, the lightness does not read as
    a number and "NaN" is written. *)
Lemma colorBrightness_not_the_same_string :
  GradientVariant.colorBrightness "hsl(20 60% 50%)"
  = Normal "hsl(20 60% 20% )"%string
  /\ GradientVariant.colorBrightness "hsl(20 60% 50%)"
     <> Normal "hsl(20 60% 20%)"%string
  /\ GradientVariant.colorBrightness "20%60%50" = Normal "20% 30% 50"%string
  /\ GradientVariant.colorBrightness "hsl(20, 60%, 50%)"
     = Normal "hsl(20, 60% NaN% )"%string.
Proof.
  split; [reflexivity|split; [|split; reflexivity]].
  intros E. vm_compute in E. discriminate E.
Qed.

(** The threshold: a lightness of 30 is raised to 50, one of 31 lowered to 1;
    the three colours of the mock data get the lightness 20. *)
Example colorBrightness_threshold :
  GradientVariant.colorBrightness "hsl(20 60% 30%)"
  = Normal "hsl(20 60% 50% )"%string
  /\ GradientVariant.colorBrightness "hsl(20 60% 31%)"
     = Normal "hsl(20 60% 1% )"%string
  /\ GradientVariant.colorBrightness "hsl(20 60% -20%)"
     = Normal "hsl(20 60% 0% )"%string
  /\ GradientVariant.colorBrightness "hsl(20 60% -60%)"
     = Normal "hsl(20 60% -40% )"%string
  /\ map (fun datum => GradientVariant.colorBrightness (color datum))
         (mockData (num:=float))
     = [Normal "hsl(20 60% 20% )"; Normal "hsl(180 60% 20% )";
        Normal "hsl(200 60% 20% )"]%string.
Proof. repeat split. Qed.

(** ** The templates *)

Section VFor.
Variables A B : Type.
Variable body : A -> nat -> completion B.

(** A [v-for] whose body returns normally on every item returns normally, with
    one result per item, in order. *)
Lemma v_for_normal (items : list A) (first : nat) :
  (forall k item, nth_error items k = Some item ->
                  exists b, body item (first + k) = Normal b) ->
  exists results,
    v_for body first items = Normal results
    /\ List.length results = List.length items
    /\ forall k item, nth_error items k = Some item ->
         exists b, nth_error results k = Some b
                   /\ body item (first + k) = Normal b.
Proof.
  revert first; induction items as [|item rest IH]; intros first Hbody.
  - exists []. split; [reflexivity|split; [reflexivity|]].
    intros [|k] item E; discriminate E.
  - destruct (Hbody 0 item eq_refl) as [b Hb].
    rewrite Nat.add_0_r in Hb.
    destruct (IH (S first)) as (results & Hrun & Hlen & Hnth).
    { intros k item' E. specialize (Hbody (S k) item' E).
      now rewrite Nat.add_succ_r in Hbody. }
    exists (b :: results). split; [|split].
    + cbn [v_for]. rewrite Hb. cbn [bind]. rewrite Hrun. reflexivity.
    + cbn [List.length]. now rewrite Hlen.
    + intros [|k] item' E.
      * injection E as <-. exists b. rewrite Nat.add_0_r. now split.
      * destruct (Hnth k item' E) as (b' & Hb' & Hrun').
        exists b'. rewrite Nat.add_succ_r. now split.
Qed.
End VFor.

(** X4: the template of either component never runs into the TypeError of
    [getRotate]: whatever list the component was set up with and whatever
    list it renders now, over any numbers, the rendering returns normally
    with one circle per entry, in input order, and the circle of the entry at
    the index [i] carries the rotation [getRotate(i)], the dash length of its
    quantity with the circumference as the gap, the mask radius
    [minRadiusMask + i] with the [minRadiusMask] of the [setup], the delay
    [getDelay(i)] and the entry's own label. *)
Theorem templates_never_throw (num : Type) (N : Number num)
    (mounted data : list (PieData num)) :
  (exists circles,
      PieChart_template mounted data = Normal circles
      /\ List.length circles = List.length data
      /\ forall i datum, nth_error data i = Some datum ->
           exists c, nth_error circles i = Some c
             /\ getRotate data i = Normal (slice_rotate c)
             /\ slice_dasharray c = (getSlice data (quantity datum), circumference)
             /\ slice_mask_r c = (minRadiusMask mounted + Z.of_nat i)%Z
             /\ slice_delay c = getDelay i
             /\ slice_mask_id c = PieChart.getId (label datum)
             /\ slice_title c = (label datum, quantity datum))
  /\ (exists circles,
      GradientVariant_template mounted data = Normal circles
      /\ List.length circles = List.length data
      /\ forall i datum, nth_error data i = Some datum ->
           exists c, nth_error circles i = Some c
             /\ getRotate data i = Normal (slice_rotate (gradient_circle c))
             /\ slice_dasharray (gradient_circle c)
                = (getSlice data (quantity datum), circumference)
             /\ slice_mask_r (gradient_circle c)
                = (minRadiusMask mounted + Z.of_nat i)%Z
             /\ slice_mask_id (gradient_circle c)
                = GradientVariant.getId (label datum) i
             /\ gradient_id c
                = ("gradient-" ++ GradientVariant.getId (label datum) i)%string
             /\ GradientVariant.colorBrightness (color datum)
                = Normal (gradient_stop_0 c)
             /\ gradient_stop_100 c = color datum).
Proof.
  assert (Hrot : forall i datum, nth_error data i = Some datum ->
                   getRotate data i
                   = Normal (fold_left (accumulate data) (firstn i data) (of_Z 0))).
  { intros i datum E. apply getRotate_prefix.
    assert (i < List.length data) by (apply nth_error_Some; congruence). lia. }
  split.
  - destruct (@v_for_normal _ _ (PieChart_circle mounted data) data 0)
      as (circles & Hrun & Hlen & Hnth).
    { intros k datum E. unfold PieChart_circle. cbn [Nat.add].
      rewrite (Hrot k datum E). cbn [bind]. eexists. reflexivity. }
    exists circles. split; [exact Hrun|split; [exact Hlen|]].
    intros i datum E. destruct (Hnth i datum E) as (c & Hc & Hbody).
    exists c. split; [exact Hc|].
    cbn [Nat.add] in Hbody. unfold PieChart_circle in Hbody.
    rewrite (Hrot i datum E) in Hbody. cbn [bind] in Hbody.
    injection Hbody as <-. cbn. rewrite (Hrot i datum E).
    repeat split; reflexivity.
  - destruct (@v_for_normal _ _ (GradientVariant_circle mounted data) data 0)
      as (circles & Hrun & Hlen & Hnth).
    { intros k datum E. unfold GradientVariant_circle. cbn [Nat.add].
      rewrite (Hrot k datum E).
      unfold GradientVariant.colorBrightness. cbn [bind].
      eexists. reflexivity. }
    exists circles. split; [exact Hrun|split; [exact Hlen|]].
    intros i datum E. destruct (Hnth i datum E) as (c & Hc & Hbody).
    exists c. split; [exact Hc|].
    cbn [Nat.add] in Hbody. unfold GradientVariant_circle in Hbody.
    rewrite (Hrot i datum E) in Hbody.
    unfold GradientVariant.colorBrightness in Hbody |- *.
    cbn [bind] in Hbody.
    injection Hbody as <-. cbn [gradient_circle gradient_id gradient_stop_0
      gradient_stop_100 slice_rotate slice_dasharray slice_mask_r
      slice_mask_id].
    rewrite (Hrot i datum E).
    repeat split; reflexivity.
Qed.

Section VForInversion.
Variables A B : Type.
Variable body : A -> nat -> completion B.

(** Each result of a [v-for] that returned is the body's result on the item
    at the same position. *)
Lemma v_for_inv (items : list A) (first : nat) (results : list B) :
  v_for body first items = Normal results ->
  forall k b, nth_error results k = Some b ->
    exists item, nth_error items k = Some item
                 /\ body item (first + k) = Normal b.
Proof.
  revert first results; induction items as [|item rest IH];
    intros first results Hrun k b Hk.
  - injection Hrun as <-. destruct k; discriminate Hk.
  - cbn [v_for] in Hrun.
    destruct (body item first) as [b0|] eqn:Hb0; [|discriminate Hrun].
    cbn [bind] in Hrun.
    destruct (v_for body (S first) rest) as [bs|] eqn:Hrest;
      [|discriminate Hrun].
    cbn [bind] in Hrun. injection Hrun as <-.
    destruct k as [|k].
    + injection Hk as <-. exists item. rewrite Nat.add_0_r. now split.
    + destruct (IH _ _ Hrest k b Hk) as (item' & Hitem & Hbody).
      exists item'. rewrite Nat.add_succ_r. now split.
Qed.
End VForInversion.

Section DistinctNames.
Local Open Scope string_scope.

Lemma string_app_inv_head (a x y : string) : a ++ x = a ++ y -> x = y.
Proof.
  induction a as [|c a IH]; cbn [append]; intros E; [exact E|].
  injection E as E. now apply IH.
Qed.

Lemma string_length_app (a b : string) :
  String.length (a ++ b) = String.length a + String.length b.
Proof.
  induction a as [|c a IH]; cbn [append String.length]; [reflexivity|].
  now rewrite IH.
Qed.

(** A name followed by "-" and an index determines both. *)
Lemma named_index_inj (name1 name2 : string) (i j : nat) :
  name1 ++ "-" ++ index_to_string i = name2 ++ "-" ++ index_to_string j ->
  name1 = name2 /\ i = j.
Proof.
  intros E. apply append_separator_inj in E as [E1 E2];
    auto using occurs_minus_index, index_to_string_inj.
Qed.

(** A list is mapped to distinct values when equal values force equal
    positions. *)
Lemma NoDup_map_positions (C D : Type) (f : C -> D) (l : list C) :
  (forall i j ci cj, nth_error l i = Some ci -> nth_error l j = Some cj ->
                     f ci = f cj -> i = j) ->
  NoDup (map f l).
Proof.
  induction l as [|c l IH]; intros Hinj; cbn [map].
  - constructor.
  - constructor.
    + intros Hin. apply in_map_iff in Hin as (x & Hfx & Hx).
      apply In_nth_error in Hx as [j Hj].
      specialize (Hinj 0 (S j) c x eq_refl Hj (eq_sym Hfx)). discriminate Hinj.
    + apply IH. intros i j ci cj Hi Hj Hf.
      specialize (Hinj (S i) (S j) ci cj Hi Hj Hf). now injection Hinj.
Qed.
End DistinctNames.

Section TemplateNames.
Local Open Scope string_scope.
Context {num : Type} `{Number num}.
Variables mounted data : list (PieData num).

Lemma PieChart_circle_normal (datum : PieData num) (i : nat) :
  nth_error data i = Some datum ->
  exists c, PieChart_circle mounted data datum i = Normal c.
Proof.
  intros E. unfold PieChart_circle.
  rewrite getRotate_prefix.
  - cbn [bind]. eexists. reflexivity.
  - assert (i < List.length data) by (apply nth_error_Some; congruence). lia.
Qed.

Lemma GradientVariant_circle_normal (datum : PieData num) (idx : nat) :
  nth_error data idx = Some datum ->
  exists c, GradientVariant_circle mounted data datum idx = Normal c.
Proof.
  intros E. unfold GradientVariant_circle, GradientVariant.colorBrightness.
  rewrite getRotate_prefix.
  - cbn [bind]. eexists. reflexivity.
  - assert (idx < List.length data) by (apply nth_error_Some; congruence). lia.
Qed.

Lemma PieChart_circle_names (datum : PieData num) (i : nat)
    (c : MaskedCircle num) :
  PieChart_circle mounted data datum i = Normal c ->
  slice_key c = template_key (label datum) i
  /\ slice_mask_id c = PieChart.getId (label datum).
Proof.
  unfold PieChart_circle. destruct (getRotate data i); cbn [bind]; intros E;
    [|discriminate E].
  injection E as <-. now split.
Qed.

Lemma GradientVariant_circle_names (datum : PieData num) (idx : nat)
    (c : GradientCircle num) :
  GradientVariant_circle mounted data datum idx = Normal c ->
  slice_key (gradient_circle c) = template_key (label datum) idx
  /\ slice_mask_id (gradient_circle c) = GradientVariant.getId (label datum) idx
  /\ gradient_id c = "gradient-" ++ GradientVariant.getId (label datum) idx.
Proof.
  unfold GradientVariant_circle, GradientVariant.colorBrightness.
  cbn [bind]. destruct (getRotate data idx); cbn [bind]; intros E;
    [|discriminate E].
  injection E as <-. now repeat split.
Qed.

(** The names of the circles that the variant rendered, by position. *)
Lemma GradientVariant_template_names (circles : list (GradientCircle num))
    (i : nat) (c : GradientCircle num) :
  GradientVariant_template mounted data = Normal circles ->
  nth_error circles i = Some c ->
  exists datum,
    nth_error data i = Some datum
    /\ slice_key (gradient_circle c) = template_key (label datum) i
    /\ slice_mask_id (gradient_circle c) = GradientVariant.getId (label datum) i
    /\ gradient_id c = "gradient-" ++ GradientVariant.getId (label datum) i.
Proof.
  intros Hrun Hc.
  destruct (v_for_inv _ _ _ Hrun _ Hc) as (datum & Hd & Hbody).
  exists datum. split; [exact Hd|].
  now apply GradientVariant_circle_names.
Qed.

Lemma PieChart_template_names (circles : list (MaskedCircle num))
    (i : nat) (c : MaskedCircle num) :
  PieChart_template mounted data = Normal circles ->
  nth_error circles i = Some c ->
  exists datum,
    nth_error data i = Some datum
    /\ slice_key c = template_key (label datum) i
    /\ slice_mask_id c = PieChart.getId (label datum).
Proof.
  intros Hrun Hc.
  destruct (v_for_inv _ _ _ Hrun _ Hc) as (datum & Hd & Hbody).
  exists datum. split; [exact Hd|].
  now apply PieChart_circle_names.
Qed.

Lemma gradient_id_is_no_mask_id (text : string) (i j : nat) (text' : string) :
  GradientVariant.getId text i
  = "gradient-" ++ GradientVariant.getId text' j ->
  i = j /\ replace " " "-" text = "gradient-" ++ replace " " "-" text'.
Proof.
  unfold GradientVariant.getId. intros E.
  rewrite <- (string_app_assoc "gradient-" (replace " " "-" text')
                               ("-" ++ index_to_string j)) in E.
  apply named_index_inj in E as [E1 E2]. now split.
Qed.
End TemplateNames.

(** X5: the variant renders a document whose [id] attributes, the masks' and
    the gradients' together, are pairwise distinct, for every list, whatever
    its labels, and whatever list the component was set up with. *)
Theorem variant_document_ids_distinct (num : Type) (N : Number num)
    (mounted data : list (PieData num)) :
  exists circles,
    GradientVariant_template mounted data = Normal circles
    /\ NoDup (document_ids circles).
Proof.
  destruct (@v_for_normal _ _ (GradientVariant_circle mounted data) data 0)
    as (circles & Hrun & _ & _).
  { intros k datum E. now apply GradientVariant_circle_normal. }
  exists circles. split; [exact Hrun|].
  unfold document_ids. apply NoDup_app.
  - apply NoDup_map_positions. intros i j ci cj Hi Hj E.
    destruct (@GradientVariant_template_names _ _ _ _ _ _ _ Hrun Hi) as (di & _ & _ & Ei & _).
    destruct (@GradientVariant_template_names _ _ _ _ _ _ _ Hrun Hj) as (dj & _ & _ & Ej & _).
    rewrite Ei, Ej in E. now apply variant_getId_index in E.
  - apply NoDup_map_positions. intros i j ci cj Hi Hj E.
    destruct (@GradientVariant_template_names _ _ _ _ _ _ _ Hrun Hi) as (di & _ & _ & _ & Ei).
    destruct (@GradientVariant_template_names _ _ _ _ _ _ _ Hrun Hj) as (dj & _ & _ & _ & Ej).
    rewrite Ei, Ej in E. apply string_app_inv_head in E.
    now apply variant_getId_index in E.
  - intros id Hmask Hgrad.
    apply in_map_iff in Hmask as (ci & Hci & Hini).
    apply in_map_iff in Hgrad as (cj & Hcj & Hinj).
    apply In_nth_error in Hini as [i Hi].
    apply In_nth_error in Hinj as [j Hj].
    destruct (@GradientVariant_template_names _ _ _ _ _ _ _ Hrun Hi) as (di & Hdi & _ & Ei & _).
    destruct (@GradientVariant_template_names _ _ _ _ _ _ _ Hrun Hj) as (dj & Hdj & _ & _ & Ej).
    rewrite Ei in Hci. rewrite Ej in Hcj. rewrite <- Hcj in Hci.
    apply gradient_id_is_no_mask_id in Hci as [-> Hlen].
    rewrite Hdi in Hdj. injection Hdj as <-.
    apply (f_equal String.length) in Hlen.
    rewrite string_length_app in Hlen. cbn [String.length] in Hlen. lia.
Qed.

(** X6: the [:key] of the [v-for], [`${label}-${index}`], is different for
    every entry in both components, also for entries that share a label (for
    which the base component's mask ids coincide). *)
Theorem template_keys_distinct (num : Type) (N : Number num)
    (mounted data : list (PieData num)) :
  (exists circles,
      PieChart_template mounted data = Normal circles
      /\ NoDup (map (@slice_key num) circles))
  /\ (exists circles,
      GradientVariant_template mounted data = Normal circles
      /\ NoDup (map (fun c => slice_key (gradient_circle c)) circles)).
Proof.
  split.
  - destruct (@v_for_normal _ _ (PieChart_circle mounted data) data 0)
      as (circles & Hrun & _ & _).
    { intros k datum E. now apply PieChart_circle_normal. }
    exists circles. split; [exact Hrun|].
    apply NoDup_map_positions. intros i j ci cj Hi Hj E.
    destruct (@PieChart_template_names _ _ _ _ _ _ _ Hrun Hi) as (di & _ & Ei & _).
    destruct (@PieChart_template_names _ _ _ _ _ _ _ Hrun Hj) as (dj & _ & Ej & _).
    rewrite Ei, Ej in E. now apply named_index_inj in E.
  - destruct (@v_for_normal _ _ (GradientVariant_circle mounted data) data 0)
      as (circles & Hrun & _ & _).
    { intros k datum E. now apply GradientVariant_circle_normal. }
    exists circles. split; [exact Hrun|].
    apply NoDup_map_positions. intros i j ci cj Hi Hj E.
    destruct (@GradientVariant_template_names _ _ _ _ _ _ _ Hrun Hi) as (di & _ & Ei & _).
    destruct (@GradientVariant_template_names _ _ _ _ _ _ _ Hrun Hj) as (dj & _ & Ej & _).
    rewrite Ei, Ej in E. now apply named_index_inj in E.
Qed.

(** ** Rotation and dash length together *)

Lemma firstn_succ_nth_error (T : Type) (l : list T) (n : nat) (x : T) :
  nth_error l n = Some x -> firstn (S n) l = (firstn n l ++ [x])%list.
Proof.
  revert n; induction l as [|y l IH]; intros [|n] E; cbn in E |- *;
    try discriminate E.
  - now injection E as <-.
  - f_equal. now apply IH.
Qed.

(** X7: each slice starts where the one before it ends: over any numbers,
    binary64 included, the rotation of the slice after the entry at [i] is
    the rotation of that entry's slice plus the entry's own angle, so the
    loop of [getRotate] recomputes a running sum. *)
Theorem rotation_recurrence (num : Type) (N : Number num)
    (data : list (PieData num)) (i : nat) (element : PieData num) :
  nth_error data i = Some element ->
  exists angle,
    getRotate data i = Normal angle
    /\ getRotate data (S i)
       = Normal (angle + (getSinglePercentage data (quantity element)
                          / of_Z 100) * of_Z 360)%js.
Proof.
  intros E.
  assert (i < List.length data) by (apply nth_error_Some; congruence).
  exists (fold_left (accumulate data) (firstn i data) (of_Z 0)).
  split; [apply getRotate_prefix; lia|].
  rewrite getRotate_prefix by lia.
  rewrite (firstn_succ_nth_error _ _ E), fold_left_app. reflexivity.
Qed.

Lemma rotation_recurrence_witness :
  exists angle,
    getRotate (num:=float) mockData 1 = Normal angle
    /\ getRotate (num:=float) mockData 2
       = Normal (angle + (getSinglePercentage mockData 10 / 100) * 360)%float.
Proof.
  exact (@rotation_recurrence float binary64 mockData 1
           (mkPieData "Ipsum Dolor" 10%float "hsl(180 60% 50%)") eq_refl).
Defined.

Section Normalisation.
Local Open Scope R_scope.

Lemma sum_Permutation (l l' : list R) : Permutation l l' -> sum l = sum l'.
Proof.
  induction 1 as [|x l l' _ IH|x y l|l l' l'' _ IH1 _ IH2];
    rewrite ?sum_cons; lra.
Qed.

Lemma totalPercentage_Permutation (data data' : list (PieData R)) :
  Permutation data data' -> totalPercentage data = totalPercentage data'.
Proof.
  intros HP. rewrite !totalPercentage_sum.
  apply sum_Permutation. now apply Permutation_map.
Qed.

End Normalisation.

(** ** More on [colorBrightness] *)

Ltac compute_white_space :=
  repeat match goal with
         | |- context [is_white_space ?c] =>
             let v := eval vm_compute in (is_white_space c) in
             change (is_white_space c) with v
         end.

Ltac compute_digit_values :=
  repeat match goal with
         | |- context [digit_value ?r ?c] =>
             let v := eval vm_compute in (digit_value r c) in
             change (digit_value r c) with v
         end.

Section Highlight.
Local Open Scope string_scope.

(** What [colorBrightness] returns for a colour with at least two "%", in
    terms of its first three pieces. *)
Lemma colorBrightness_pieces (p0 p1 p2 : string) (more : list string) (color : string) :
  split "%" color = p0 :: p1 :: p2 :: more ->
  GradientVariant.colorBrightness color
  = Normal (p0 ++ "% "
            ++ Number_toString
                 (if gt (parseInt (Some p1)) (Int 30)
                  then minus (parseInt (Some p1)) (Int 30)
                  else plus (parseInt (Some p1)) (Int 20))
            ++ "% " ++ p2).
Proof.
  intros E. unfold GradientVariant.colorBrightness. rewrite E. reflexivity.
Qed.

Lemma split_four (p0 p1 p2 more : string) :
  occurs "%" p0 = false ->
  occurs "%" p1 = false ->
  occurs "%" p2 = false ->
  split "%" (p0 ++ "%" ++ p1 ++ "%" ++ p2 ++ "%" ++ more)
  = p0 :: p1 :: p2 :: split "%" more.
Proof.
  intros H0 H1 H2. cbn [append].
  rewrite split_app_separator by exact H0.
  rewrite split_app_separator by exact H1.
  now rewrite split_app_separator by exact H2.
Qed.

Lemma parse_digits_uint_point (d : Decimal.uint) (acc : Z) (fraction : string) :
  parse_digits 10 (Some acc)
               (NilEmpty.string_of_uint d ++ String "." fraction)
  = Some (uint_value acc d).
Proof.
  revert acc; induction d; intros acc; cbn [NilEmpty.string_of_uint append];
    cbn [parse_digits]; compute_digit_values; cbv iota beta;
    try reflexivity; apply IHd.
Qed.

Lemma parseInt_numeral_point (d : Decimal.uint) (fraction : string) :
  d <> Decimal.Nil ->
  parseInt (Some (String " " (NilEmpty.string_of_uint d
                              ++ String "." fraction)))
  = Int (uint_value 0 d)
  /\ parseInt (Some (String " " (String "-" (NilEmpty.string_of_uint d
                                             ++ String "." fraction))))
     = Int (- uint_value 0 d).
Proof.
  intros Hd. destruct d as [|d|d|d|d|d|d|d|d|d|d]; [congruence|..].
  1: destruct d.
  all: unfold parseInt;
    cbn [ToString trim_start NilEmpty.string_of_uint append];
    compute_white_space; cbv iota; cbn [parse_digits];
    compute_digit_values; cbv iota beta;
    rewrite ?parse_digits_uint_point, ?Z.mul_1_l, ?minus_one_mul;
    split; reflexivity.
Qed.

(** [parseInt] stops at a decimal point. *)
Lemma parseInt_stops_at_point (z : Z) (fraction : string) :
  parseInt (Some (String " " (Number_toString (Int z) ++ String "." fraction)))
  = Int z.
Proof.
  unfold Number_toString.
  destruct z as [|p|p]; [reflexivity|..]; cbn [Z.to_int NilZero.string_of_int];
    pose proof (DecimalPos.Unsigned.to_uint_nonnil p) as Hnil;
    pose proof (DecimalPos.Unsigned.of_to p) as Hp;
    unfold NilZero.string_of_uint;
    destruct (Pos.to_uint p) eqn:E; try congruence; rewrite <- E in *;
    destruct (@parseInt_numeral_point _ fraction Hnil) as [Hpos Hneg];
    cbn [append]; rewrite ?Hpos, ?Hneg, uint_value_of_uint, Hp; reflexivity.
Qed.
End Highlight.

(** X10: [colorBrightness] keeps the first three pieces of a colour only: a
    third "%" and all that follows it are dropped, so a colour with an alpha
    percentage loses it together with its closing parenthesis. *)
Theorem colorBrightness_drops_the_tail (p0 p1 p2 more : string) :
  occurs "%" p0 = false ->
  occurs "%" p1 = false ->
  occurs "%" p2 = false ->
  GradientVariant.colorBrightness
    (p0 ++ "%" ++ p1 ++ "%" ++ p2 ++ "%" ++ more)%string
  = GradientVariant.colorBrightness (p0 ++ "%" ++ p1 ++ "%" ++ p2)%string.
Proof.
  intros H0 H1 H2.
  rewrite (@colorBrightness_pieces p0 p1 p2 (split "%" more))
    by now apply split_four.
  rewrite (@colorBrightness_pieces p0 p1 p2 [])
    by (cbn [append]; now apply split_three).
  reflexivity.
Qed.

Lemma colorBrightness_drops_the_tail_witness :
  GradientVariant.colorBrightness "hsl(20 60% 50% / 40%)"
  = Normal "hsl(20 60% 20%  / 40"%string.
Proof.
  exact (eq_trans
           (@colorBrightness_drops_the_tail "hsl(20 60" " 50" " / 40" ")"
              eq_refl eq_refl eq_refl)
           eq_refl).
Defined.

(** X11: for a colour of three pieces whose lightness reads as a percentage
    [v] between 0 and 100, the highlight's lightness is again a percentage:
    [v + 20], between 20 and 50, when [v] is at most 30, and [v - 30],
    between 1 and 70, when it is more; it is never [v] itself.  The step is
    not monotone and not injective: the lightnesses [v] and [v + 50] get the
    same highlight when [v] is at most 30. *)
Theorem highlight_lightness_range
    (hue_saturation lightness rest : string) (v : Z) :
  occurs "%" hue_saturation = false ->
  occurs "%" lightness = false ->
  occurs "%" rest = false ->
  parseInt (Some lightness) = Int v ->
  (0 <= v <= 100)%Z ->
  exists v' : Z,
    GradientVariant.colorBrightness
      (hue_saturation ++ "%" ++ lightness ++ "%" ++ rest)%string
    = Normal (hue_saturation ++ "% " ++ Number_toString (Int v')
              ++ "% " ++ rest)%string
    /\ (1 <= v' <= 70)%Z
    /\ v' <> v
    /\ ((v <= 30)%Z -> v' = (v + 20)%Z /\ (20 <= v' <= 50)%Z)
    /\ ((30 < v)%Z -> v' = (v - 30)%Z)
    /\ forall lightness50 : string,
         occurs "%" lightness50 = false ->
         parseInt (Some lightness50) = Int (v + 50) ->
         (v <= 30)%Z ->
         GradientVariant.colorBrightness
           (hue_saturation ++ "%" ++ lightness50 ++ "%" ++ rest)%string
         = GradientVariant.colorBrightness
             (hue_saturation ++ "%" ++ lightness ++ "%" ++ rest)%string.
Proof.
  intros H0 H1 H2 Hv Hrange.
  exists (if (30 <? v)%Z then v - 30 else v + 20)%Z.
  assert (Hrun : GradientVariant.colorBrightness
                   (hue_saturation ++ "%" ++ lightness ++ "%" ++ rest)%string
                 = Normal (hue_saturation ++ "% "
                           ++ Number_toString
                                (Int (if (30 <? v)%Z then v - 30 else v + 20))
                           ++ "% " ++ rest)%string).
  { rewrite (@colorBrightness_pieces hue_saturation lightness rest [])
      by (cbn [append]; now apply split_three).
    rewrite Hv. cbn [gt]. destruct (30 <? v)%Z; reflexivity. }
  split; [exact Hrun|].
  destruct (Z.ltb_spec 30 v) as [Hgt|Hle].
  - split; [lia|split; [lia|split; [lia|split; [lia|]]]].
    intros lightness50 _ _ Hsmall. lia.
  - split; [lia|split; [lia|split; [lia|split; [lia|]]]].
    intros lightness50 H50 Hv50 _.
    rewrite Hrun.
    rewrite (@colorBrightness_pieces hue_saturation lightness50 rest [])
      by (cbn [append]; now apply split_three).
    rewrite Hv50. cbn [gt].
    destruct (Z.ltb_spec 30 (v + 50)) as [_|Hcontra]; [|lia].
    destruct (Z.ltb_spec 30 v) as [Hcontra|_]; [lia|].
    cbn [minus]. replace (v + 50 - 30)%Z with (v + 20)%Z by lia. reflexivity.
Qed.

Lemma highlight_lightness_range_witness :
  GradientVariant.colorBrightness "hsl(20 60% 60%)"
  = GradientVariant.colorBrightness "hsl(20 60% 10%)".
Proof.
  assert (Hrange : (0 <= 10 <= 100)%Z) by lia.
  assert (Hsmall : (10 <= 30)%Z) by lia.
  destruct (@highlight_lightness_range "hsl(20 60" " 10" ")" 10
              eq_refl eq_refl eq_refl eq_refl Hrange)
    as (v' & _ & _ & _ & _ & _ & Hsame).
  exact (Hsame " 60" eq_refl eq_refl Hsmall).
Defined.

(** X12: the lightness is read with [parseInt], which stops at a decimal
    point: a colour whose lightness has a fraction gets the highlight of the
    colour with the fraction cut off, not rounded. *)
Theorem colorBrightness_cuts_the_fraction
    (hue_saturation fraction rest : string) (v : Z) :
  occurs "%" hue_saturation = false ->
  occurs "%" fraction = false ->
  occurs "%" rest = false ->
  (Z.abs v <= 2 ^ 53)%Z ->
  GradientVariant.colorBrightness
    (hue_saturation ++ "% " ++ Number_toString (Int v) ++ "." ++ fraction
     ++ "%" ++ rest)%string
  = GradientVariant.colorBrightness
      (hue_saturation ++ "% " ++ Number_toString (Int v) ++ "%" ++ rest)%string.
Proof.
  intros H0 Hf H2 _.
  assert (Hn : occurs "%" (Number_toString (Int v)) = false)
    by apply occurs_percent_number.
  assert (Happ : forall a b, occurs "%" a = false -> occurs "%" b = false ->
                             occurs "%" (a ++ b)%string = false).
  { intros a b Ha Hb. induction a as [|c a IH]; [exact Hb|].
    cbn [append occurs] in Ha |- *.
    apply orb_false_elim in Ha as [Hc Ha]. now rewrite Hc, IH. }
  rewrite (@colorBrightness_pieces hue_saturation
             (" " ++ Number_toString (Int v) ++ "." ++ fraction)%string rest []).
  2:{ replace (hue_saturation ++ "% " ++ Number_toString (Int v) ++ "."
               ++ fraction ++ "%" ++ rest)%string
        with (hue_saturation
              ++ String "%" ((" " ++ Number_toString (Int v)
                              ++ "." ++ fraction)
                             ++ String "%" rest))%string
        by (cbn [append]; now rewrite string_app_assoc).
      apply split_three; try assumption.
      cbn [append occurs]. apply Happ; [exact Hn|]. cbn [occurs]. exact Hf. }
  rewrite (@colorBrightness_pieces hue_saturation
             (" " ++ Number_toString (Int v))%string rest []).
  2:{ change (split "%" (hue_saturation
                         ++ String "%" ((" " ++ Number_toString (Int v))
                                        ++ String "%" rest))%string
              = [hue_saturation; (" " ++ Number_toString (Int v))%string; rest]).
      apply split_three; assumption. }
  cbn [append].
  rewrite parseInt_stops_at_point, parseInt_Number_toString. reflexivity.
Qed.

Lemma colorBrightness_cuts_the_fraction_witness :
  GradientVariant.colorBrightness "hsl(20 60% 30.9%)"
  = GradientVariant.colorBrightness "hsl(20 60% 30%)".
Proof.
  apply (@colorBrightness_cuts_the_fraction "hsl(20 60" "9" ")" 30);
    try reflexivity.
  simpl; lia.
Defined.

(** ** What a rotation depends on *)

Lemma fold_left_accumulate_total (num : Type) (N : Number num)
    (data data' l : list (PieData num)) (angle : num) :
  totalPercentage data = totalPercentage data' ->
  fold_left (accumulate data) l angle = fold_left (accumulate data') l angle.
Proof.
  intros Htotal. revert angle; induction l as [|element l IH]; intros angle.
  - reflexivity.
  - cbn [fold_left]. rewrite IH. f_equal.
    unfold accumulate, sliceAngle, getSinglePercentage. now rewrite Htotal.
Qed.

(** X13: the rotation of a slice depends on the entries before it and on the
    total only: over any numbers, two lists with the same total and the same
    first [index] entries give the same [getRotate(index)]; in exact
    arithmetic, reordering the entries after a slice does not move it. *)
Theorem rotation_depends_on_prefix_and_total :
  (forall (num : Type) (N : Number num) (data data' : list (PieData num))
          (index : nat),
      totalPercentage data = totalPercentage data' ->
      firstn index data = firstn index data' ->
      index <= List.length data ->
      index <= List.length data' ->
      getRotate data index = getRotate data' index)
  /\ (forall (before after after' : list (PieData R)) (index : nat),
        Permutation after after' ->
        index <= List.length before ->
        getRotate (before ++ after) index = getRotate (before ++ after') index).
Proof.
  assert (Hgeneric :
    forall (num : Type) (N : Number num) (data data' : list (PieData num))
           (index : nat),
      totalPercentage data = totalPercentage data' ->
      firstn index data = firstn index data' ->
      index <= List.length data ->
      index <= List.length data' ->
      getRotate data index = getRotate data' index).
  { intros num N data data' index Htotal Hfirst Hle Hle'.
    rewrite !getRotate_prefix by assumption.
    rewrite Hfirst. f_equal. now apply fold_left_accumulate_total. }
  split; [exact Hgeneric|].
  intros before after after' index HP Hle.
  apply Hgeneric.
  - apply totalPercentage_Permutation. now apply Permutation_app_head.
  - rewrite !firstn_app.
    replace (index - List.length before) with 0 by lia. reflexivity.
  - rewrite length_app. lia.
  - rewrite length_app. lia.
Qed.

Lemma rotation_depends_on_prefix_and_total_witness :
  getRotate (num:=R) (slicesOf [70; 10; 20]%Z) 1
  = getRotate (num:=R) (slicesOf [70; 20; 10]%Z) 1.
Proof.
  apply (proj2 rotation_depends_on_prefix_and_total
           (slicesOf (num:=R) [70]%Z)
           (slicesOf (num:=R) [10; 20]%Z)
           (slicesOf (num:=R) [20; 10]%Z) 1).
  - apply perm_swap.
  - simpl; lia.
Defined.

(** ** The order of binary64 *)

Section FloatOrder.



End FloatOrder.

Section DelaysIncrease.



End DelaysIncrease.


(** ** Animation delay (C8) *)





(** ** Small lists in binary64 *)

Section SmallLists.





End SmallLists.

(** ** Dash lengths (C1) *)




(** ** Cumulative rotation (C2) *)




(** ** Mask radius (C7, C10) *)

Section MaskRadius.
Variable num : Type.
Context `{Number num}.

Lemma v_for_length (A B : Type) (body : A -> nat -> completion B)
    (items : list A) (first : nat) (results : list B) :
  v_for body first items = Normal results ->
  List.length results = List.length items.
Proof.
  revert first results; induction items as [|item rest IH];
    intros first results Hrun.
  - injection Hrun as <-. reflexivity.
  - cbn [v_for] in Hrun.
    destruct (body item first) as [b0|]; [|discriminate Hrun].
    cbn [bind] in Hrun.
    destruct (v_for body (S first) rest) as [bs|] eqn:Hrest;
      [|discriminate Hrun].
    cbn [bind] in Hrun. injection Hrun as <-.
    cbn [List.length]. f_equal. exact (IH _ _ Hrest).
Qed.

(** The mask radius of a rendered circle is [16 - n + i] with [n] the length
    of the list that the component was set up with. *)
Lemma PieChart_template_mask_r (mounted data : list (PieData num))
    (circles : list (MaskedCircle num)) :
  PieChart_template mounted data = Normal circles ->
  forall i c, nth_error circles i = Some c ->
    slice_mask_r c = (16 - Z.of_nat (List.length mounted) + Z.of_nat i)%Z.
Proof.
  intros Hrun i c Hc.
  destruct (v_for_inv _ _ _ Hrun _ Hc) as (item & _ & Hbody).
  cbn [Nat.add] in Hbody. unfold PieChart_circle in Hbody.
  destruct (getRotate data i); [|discriminate Hbody].
  cbn [bind] in Hbody. injection Hbody as <-. reflexivity.
Qed.
End MaskRadius.

(** C7, the code against the claim.  [minRadiusMask] is a plain constant of
    the [setup], not a [computed]: a rendered circle has the mask radius
    [16 - n + i] with [n] the length of the list at the [setup], whatever
    list is rendered.  A component set up with the three entries of the mock
    data that is then given four entries binds the mask radii 13, 14, 15, 16,
    where the claim's [baseRadius - n + i] for the list of four is 12, 13,
    14, 15.  For the list of the [setup] the radii are the claim's: 13, 14,
    15 for the mock data, and a step of one from each index to the next. *)
Theorem mask_radius_is_fixed_at_setup :
  (forall (num : Type) (N : Number num) (mounted data : list (PieData num))
          (circles : list (MaskedCircle num)),
      PieChart_template mounted data = Normal circles ->
      forall i c, nth_error circles i = Some c ->
        slice_mask_r c = spec_maskRadius 16 (List.length mounted) i)
  /\ mask_radii (PieChart_template (num:=float) mockData
                                   (slicesOf [1; 1; 1; 1]%Z))
     = Normal [13; 14; 15; 16]%Z
  /\ map (spec_maskRadius 16 (List.length [1; 1; 1; 1]%Z)) [0; 1; 2; 3]
     = [12; 13; 14; 15]%Z
  /\ mask_radii (PieChart_template (num:=float) mockData mockData)
     = Normal (map (spec_maskRadius 16 3) [0; 1; 2])
  /\ map (spec_maskRadius 16 3) [0; 1; 2] = [13; 14; 15]%Z
  /\ (forall (num : Type) (N : Number num) (data : list (PieData num))
             (circles : list (MaskedCircle num)),
         PieChart_template data data = Normal circles ->
         forall i c c', nth_error circles i = Some c ->
           nth_error circles (S i) = Some c' ->
           slice_mask_r c' = (slice_mask_r c + 1)%Z).
Proof.
  split; [|split; [|split; [|split; [|split]]]].
  - intros num N mounted data circles Hrun i c Hc.
    rewrite (PieChart_template_mask_r _ _ Hrun _ Hc).
    unfold spec_maskRadius. reflexivity.
  - vm_compute. reflexivity.
  - reflexivity.
  - vm_compute. reflexivity.
  - reflexivity.
  - intros num N data circles Hrun i c c' Hc Hc'.
    rewrite (PieChart_template_mask_r _ _ Hrun _ Hc).
    rewrite (PieChart_template_mask_r _ _ Hrun _ Hc').
    lia.
Qed.

(** C10, the code against the claim.  The bounds are those of the list of
    the [setup], not of the list that is rendered: a component set up with
    the three entries of the mock data that then renders four entries gives
    the last one the mask radius 16, the drawing radius itself; rendering 20
    entries, or 16, it gives the first one the mask radius 13, neither
    negative nor zero.  For the list of the [setup], non-empty, every mask
    radius is below 16, and the first one, [16 - n], is negative with more
    than 16 entries and zero with 16: there is no clamp. *)
Theorem mask_radius_bounds_are_those_of_the_setup :
  mask_radii (PieChart_template (num:=float) mockData
                                (slicesOf [1; 1; 1; 1]%Z))
  = Normal [13; 14; 15; 16]%Z
  /\ radius = 16%Z
  /\ mask_radii (PieChart_template (num:=float) mockData
                                   (slicesOf (repeat 1%Z 20)))
     = Normal [13; 14; 15; 16; 17; 18; 19; 20; 21; 22;
               23; 24; 25; 26; 27; 28; 29; 30; 31; 32]%Z
  /\ mask_radii (PieChart_template (num:=float) mockData
                                   (slicesOf (repeat 1%Z 16)))
     = Normal [13; 14; 15; 16; 17; 18; 19; 20; 21; 22;
               23; 24; 25; 26; 27; 28]%Z
  /\ (forall (num : Type) (N : Number num) (data : list (PieData num))
             (circles : list (MaskedCircle num)),
         data <> [] ->
         PieChart_template data data = Normal circles ->
         (forall i c, nth_error circles i = Some c ->
                      (slice_mask_r c < radius)%Z)
         /\ exists first,
              nth_error circles 0 = Some first
              /\ slice_mask_r first = (16 - Z.of_nat (List.length data))%Z
              /\ (16 < List.length data -> (slice_mask_r first < 0)%Z)
              /\ (List.length data = 16 -> slice_mask_r first = 0%Z)).
Proof.
  split; [vm_compute; reflexivity|].
  split; [reflexivity|].
  split; [vm_compute; reflexivity|].
  split; [vm_compute; reflexivity|].
  intros num N data circles Hne Hrun.
  pose proof (v_for_length _ _ _ Hrun) as Hlen.
  split.
  - intros i c Hc.
    rewrite (PieChart_template_mask_r _ _ Hrun _ Hc).
    assert (i < List.length circles) by (apply nth_error_Some; congruence).
    unfold radius. lia.
  - destruct circles as [|first rest].
    + destruct data; [congruence|discriminate Hlen].
    + exists first. split; [reflexivity|].
      rewrite (PieChart_template_mask_r _ _ Hrun 0 eq_refl).
      split; [lia|split; lia].
Qed.
